(** * MGD (Modèle Génératif Dialectique): the engine, versions 1.1 and 1.2

    A shallow embedding of [src/mgd_engine.py] (module [V1]) and of
    [src/mgd_engine_v1.2.py] (module [V12]).

    - A Python [int] is a [Z]: unbounded, no wrap-around.
    - A [Vector] is a triple of integers, compared structurally.
    - A Python [set] of vectors is a [gset Vector]; [list(etats)] is
      [elements etats], and every result that depends on the order of
      that list is proved for an arbitrary enumeration of the set.
    - [len] of a set is [size], a [nat]; the history is a [list nat]. *)

From Stdlib Require Import ZArith List Lia SpecFloat Ascii.
From stdpp Require Import base numbers list list_numbers gmap sets fin_sets
  strings pretty.

Local Open Scope Z_scope.

(** ** Vectors and the three operators *)

Definition Vector : Type := Z * Z * Z.

(** [self.M_THESE], [self.M_ANTITHESE], [self.M_SYNTHESE] (same in both
    versions). *)
Definition M_THESE : Vector := (1, 0, 0).
Definition M_ANTITHESE : Vector := (0, 1, 0).
Definition M_SYNTHESE : Vector := (0, 0, 1).

(** [return s >= (t + a)] *)
Definition verifier_axiome (t a s : Z) : bool := (s >=? t + a).

(** [return self.verifier_axiome( *v )] *)
Definition est_equilibre (v : Vector) : bool :=
  let '(t, a, s) := v in verifier_axiome t a s.

(** [tuple(x + y for x, y in zip(v1, v2))] *)
Definition hybridation (v1 v2 : Vector) : Vector :=
  let '(t1, a1, s1) := v1 in
  let '(t2, a2, s2) := v2 in
  (t1 + t2, a1 + a2, s1 + s2).

(** [v1[1] == v2[0]] *)
Definition ancrage_valide (v1 v2 : Vector) : bool :=
  let '(_, a1, _) := v1 in
  let '(t2, _, _) := v2 in
  (a1 =? t2).

(** ** The closure loop, shared parts

    Both versions scan the same pairs and keep the same candidates; they
    differ in the resolution operator and in where the loop stops. *)

Section Cloture.
Variable resolution : Vector → Vector.

(** [for i, s1 in enumerate(liste_etats): for s2 in liste_etats[i:]]:
    the pairs [(l[i], l[j])] with [i <= j], in scan order. *)
Fixpoint paires (l : list Vector) : list (Vector * Vector) :=
  match l with
  | [] => []
  | s1 :: reste => map (pair s1) (s1 :: reste) ++ paires reste
  end.

(** The body of the two nested loops, started from [nouveaux = set()]:
    [stable = resolution(hybridation(s1, s2))], added to [nouveaux]
    when [stable not in etats]. *)
Definition balayer (liste_etats : list Vector) (etats : gset Vector)
  : gset Vector :=
  foldl (λ (nouveaux : gset Vector) '(s1, s2),
           let hybrid := hybridation s1 s2 in
           let stable := resolution hybrid in
           if decide (stable ∈ etats) then nouveaux
           else nouveaux ∪ {[stable]})
        ∅ (paires liste_etats).

(** One pass with [liste_etats = list(etats)]. *)
Definition nouveaux_etats (etats : gset Vector) : gset Vector :=
  balayer (elements etats) etats.

(** The state set after one pass that does not stop:
    [etats.update(nouveaux)]. *)
Definition etape (etats : gset Vector) : gset Vector :=
  etats ∪ nouveaux_etats etats.

(** The state set after [i] passes that did not stop. *)
Definition etats_apres (i : nat) (etats : gset Vector) : gset Vector :=
  Nat.iter i etape etats.

(** The sizes of the new sets found by passes [0 .. k-1]. *)
Definition croissances (k : nat) (etats : gset Vector) : list nat :=
  map (λ i, size (nouveaux_etats (etats_apres i etats))) (seq 0 k).
End Cloture.

(** The seed set [{self.M_THESE, self.M_ANTITHESE, self.M_SYNTHESE}]. *)
Definition etats_de_base : gset Vector :=
  {[M_THESE; M_ANTITHESE; M_SYNTHESE]}.

(** ** The cube C27 and its report *)

(** Python floats are IEEE 754 binary64 numbers: [spec_float] with a
    53-bit mantissa and exponents below 1024, every operation rounded to
    nearest, ties to even. *)
Module Flottant.
Definition prec : Z := 53.
Definition emax : Z := 1024.

(** [float(n)] for an integer [n]. *)
Definition of_int (n : Z) : spec_float := binary_normalize prec emax n 0 false.

(** [x * y] on floats. *)
Definition mul (x y : spec_float) : spec_float := SFmul prec emax x y.

(** An integer as an exact, not yet rounded, mantissa with exponent 0. *)
Definition entier (n : Z) : spec_float :=
  match n with
  | Z0 => S754_zero false
  | Zpos p => S754_finite false p 0
  | Zneg p => S754_finite true p 0
  end.

(** [n / d] on integers (true division): the exact quotient rounded
    once. The divisor of the report is [27 ** 2], never 0. *)
Definition truediv (n d : Z) : spec_float :=
  SFdiv prec emax (entier n) (entier d).

(** The integer nearest to [n / d], ties to the even one ([0 < d]). *)
Definition arrondi_pair (n d : Z) : Z :=
  let q := n `div` d in
  let r := n `mod` d in
  match 2 * r ?= d with
  | Lt => q
  | Gt => q + 1
  | Eq => if Z.even q then q else q + 1
  end.

(** The number of hundredths nearest to the exact value [m * 2^e] of a
    finite float, ties to even. *)
Definition centiemes (x : spec_float) : option Z :=
  match x with
  | S754_zero _ => Some 0
  | S754_finite sg m e =>
      let c := if (0 <=? e) then Z.pos m * 2 ^ e * 100
               else arrondi_pair (Z.pos m * 100) (2 ^ (- e)) in
      Some (if sg then - c else c)
  | _ => None
  end.

(** [round(x, 2)]: the exact value of [x] is rounded to two decimals and
    the float nearest to that decimal is returned, with the sign of [x]
    when it is a zero; a float that is an integer, an infinity or NaN is
    returned as it is. *)
Definition round2 (x : spec_float) : spec_float :=
  match x with
  | S754_finite sg _ e =>
      if (0 <=? e) then x
      else match centiemes x with
           | Some 0 => S754_zero sg
           | Some c => truediv c 100
           | None => x
           end
  | _ => x
  end.
End Flottant.

(** [list(product(range(3), repeat=3))]: the first component varies
    slowest. *)
Definition generer_cube_27 : list Vector :=
  t ← [0; 1; 2]; a ← [0; 1; 2]; s ← [0; 1; 2]; [(t, a, s)].

(** The dictionary returned by [analyser_cube_27], one field per key. *)
Record rapport := {
  nombre_points : nat;
  total_paires : Z;
  ancrages_valides : Z;
  ratio_percentage : spec_float
}.

(** [sum(1 for p1 in cube for p2 in cube if self.ancrage_valide(p1, p2))] *)
Definition compter_ancrages (cube : list Vector) : Z :=
  foldr Z.add 0
    (p1 ← cube; p2 ← cube; if ancrage_valide p1 p2 then [1] else []).

(** ** The poetic triad *)

(** [str(v)] for a triple of integers, as in ["(1, 0, 0)"]. *)
Definition str_vector (v : Vector) : string :=
  let '(t, a, s) := v in
  "(" +:+ pretty t +:+ ", " +:+ pretty a +:+ ", " +:+ pretty s +:+ ")".

(** The string [s] does not contain the character [c]. *)
Fixpoint sans (c : ascii) (s : string) : Prop :=
  match s with
  | EmptyString => True
  | String x r => x ≠ c ∧ sans c r
  end.

(** [concepts.get(v, str(v)) if concepts else str(v)]: [None] and the
    empty dictionary are both falsy. *)
Definition label (concepts : option (gmap Vector string)) (v : Vector)
  : string :=
  match concepts with
  | Some d =>
      if decide (d = ∅) then str_vector v
      else default (str_vector v) (d !! v)
  | None => str_vector v
  end.

(** The dictionary returned by [generer_triade_poetique], one field per
    key. *)
Record triade := {
  concept_1 : string;
  concept_2 : string;
  tension : Vector;
  synthese : Vector;
  equilibre : bool
}.

(** A call either returns its value or is rejected for its argument. *)
Inductive issue (A : Type) : Type :=
  | Retour (r : A)
  | ArgumentInvalide.
Arguments Retour {A} r.
Arguments ArgumentInvalide {A}.

(** ** Version 1.1, [src/mgd_engine.py] *)

Module V1.
(** [t, a, s = v; s_min = t + a; return (t, a, max(s, s_min))] *)
Definition resolution (v : Vector) : Vector :=
  let '(t, a, s) := v in
  let s_min := t + a in
  (t, a, Z.max s s_min).

(** [for iteration in range(n)]: the history entry is appended and the
    states merged before the test [len(new_states) == 0] breaks. *)
Fixpoint boucle (n : nat) (all_states : gset Vector) (history : list nat)
  : list nat * gset Vector :=
  match n with
  | O => (history, all_states)
  | S n' =>
      let new_states := nouveaux_etats resolution all_states in
      let all_states' := all_states ∪ new_states in
      let history' := history ++ [size new_states] in
      if decide (size new_states = 0%nat) then (history', all_states')
      else boucle n' all_states' history'
  end.

(** [range(max_iterations)] is empty for [max_iterations <= 0]. *)
Definition generer_hybridations (max_iterations : Z)
  : list nat * gset Vector :=
  boucle (Z.to_nat max_iterations) etats_de_base [].

(** A call of [generer_hybridations]: the body tests nothing about
    [max_iterations] and raises nowhere, so every call returns. *)
Definition appel_generer_hybridations (max_iterations : Z)
  : issue (list nat * gset Vector) :=
  Retour (generer_hybridations max_iterations).

(** [valid_anchors = 0], then [for p1 in cube: for p2 in cube:] with
    [valid_anchors += 1] when the pair anchors. *)
Definition compter_boucles (cube : list Vector) : Z :=
  foldl (λ valid_anchors p1,
           foldl (λ valid_anchors p2,
                    if ancrage_valide p1 p2 then valid_anchors + 1
                    else valid_anchors)
                 valid_anchors cube)
        0 cube.

(** The ratio is reported as computed, without rounding. *)
Definition analyser_cube_27 : rapport :=
  let cube := generer_cube_27 in
  let total_pairs := Z.of_nat (length cube) ^ 2 in
  let valid_anchors := compter_boucles cube in
  let ratio :=
    Flottant.mul (Flottant.truediv valid_anchors total_pairs)
                 (Flottant.of_int 100) in
  {| nombre_points := length cube;
     total_paires := total_pairs;
     ancrages_valides := valid_anchors;
     ratio_percentage := ratio |}.

(** [concepts=None] by default; the last field is
    [self.verifier_axiome( *resolved )]. *)
Definition generer_triade_poetique (v1 v2 : Vector)
    (concepts : option (gmap Vector string)) : triade :=
  let hybrid := hybridation v1 v2 in
  let resolved := resolution hybrid in
  {| concept_1 := label concepts v1;
     concept_2 := label concepts v2;
     tension := hybrid;
     synthese := resolved;
     equilibre := let '(t, a, s) := resolved in verifier_axiome t a s |}.
End V1.

(** ** Version 1.2, [src/mgd_engine_v1.2.py] *)

Module V12.
(** [if s >= s_equilibre: return v] else [(t, a, s_equilibre)] *)
Definition resolution (v : Vector) : Vector :=
  let '(t, a, s) := v in
  let s_equilibre := t + a in
  if (s >=? s_equilibre) then v else (t, a, s_equilibre).

(** [for iteration in range(n)]: [if not nouveaux: break] comes first,
    then [etats.update(nouveaux)] and
    [historique.append(len(nouveaux))]. *)
Fixpoint boucle (n : nat) (etats : gset Vector) (historique : list nat)
  : list nat * gset Vector :=
  match n with
  | O => (historique, etats)
  | S n' =>
      let nouveaux := nouveaux_etats resolution etats in
      if decide (nouveaux = ∅) then (historique, etats)
      else boucle n' (etats ∪ nouveaux) (historique ++ [size nouveaux])
  end.

(** [range(max_iterations)] is empty for [max_iterations <= 0]. *)
Definition generer_hybridations (max_iterations : Z)
  : list nat * gset Vector :=
  boucle (Z.to_nat max_iterations) etats_de_base [].

(** A call of [generer_hybridations]: the body tests nothing about
    [max_iterations] and raises nowhere, so every call returns. *)
Definition appel_generer_hybridations (max_iterations : Z)
  : issue (list nat * gset Vector) :=
  Retour (generer_hybridations max_iterations).

(** [ratio = (ancrages_valides / total_paires) * 100], reported as
    [round(ratio, 2)]. *)
Definition ratio_cube (ancrages_valides total_paires : Z) : spec_float :=
  Flottant.mul (Flottant.truediv ancrages_valides total_paires)
               (Flottant.of_int 100).

Definition analyser_cube_27 : rapport :=
  let cube := generer_cube_27 in
  let total_paires := Z.of_nat (length cube) ^ 2 in
  let ancrages_valides := compter_ancrages cube in
  let ratio := ratio_cube ancrages_valides total_paires in
  {| nombre_points := length cube;
     total_paires := total_paires;
     ancrages_valides := ancrages_valides;
     ratio_percentage := Flottant.round2 ratio |}.

(** [concepts=None] by default; the last field is
    [self.est_equilibre(synthese)]. *)
Definition generer_triade_poetique (v1 v2 : Vector)
    (concepts : option (gmap Vector string)) : triade :=
  let hybrid := hybridation v1 v2 in
  let synthese := resolution hybrid in
  {| concept_1 := label concepts v1;
     concept_2 := label concepts v2;
     tension := hybrid;
     synthese := synthese;
     equilibre := est_equilibre synthese |}.
End V12.

(** ** The resolution operator *)

Lemma verifier_axiome_spec t a s : verifier_axiome t a s = true ↔ t + a ≤ s.
Proof. unfold verifier_axiome. rewrite Z.geb_leb. apply Z.leb_le. Qed.

Lemma resolution_V12_max t a s :
  V12.resolution (t, a, s) = (t, a, Z.max s (t + a)).
Proof.
  unfold V12.resolution. rewrite Z.geb_leb.
  destruct (Z.leb_spec (t + a) s) as [Hle|Hlt].
  - by rewrite Z.max_l.
  - rewrite Z.max_r; [done | lia].
Qed.

Lemma resolution_V1_max t a s :
  V1.resolution (t, a, s) = (t, a, Z.max s (t + a)).
Proof. reflexivity. Qed.

(** C9. The resolution of version 1.1, which always rebuilds the triple as
    [(t, a, max(s, t+a))], and the resolution of version 1.2, which returns
    its argument unchanged when [s >= t+a], return the same vector on every
    integer triple. *)
Theorem resolution_V1_eq_V12 (v : Vector) : V1.resolution v = V12.resolution v.
Proof.
  destruct v as [[t a] s]. rewrite resolution_V12_max. reflexivity.
Qed.

(** C4. Resolution is idempotent, in version 1.2 and in version 1.1:
    resolving a resolved triple changes nothing. *)
Theorem resolution_idempotent (v : Vector) :
  V12.resolution (V12.resolution v) = V12.resolution v
  ∧ V1.resolution (V1.resolution v) = V1.resolution v.
Proof.
  destruct v as [[t a] s].
  rewrite !resolution_V12_max, !resolution_V1_max.
  split; f_equal; lia.
Qed.

Lemma est_equilibre_max t a s : est_equilibre (t, a, Z.max s (t + a)) = true.
Proof. apply verifier_axiome_spec. lia. Qed.

(** C5. The balance predicate holds of every output of resolution:
    [verifier_axiome] applied to the three components of [resolution v]
    returns [true]. *)
Theorem resolution_equilibre (v : Vector) :
  let '(t', a', s') := V12.resolution v in verifier_axiome t' a' s' = true.
Proof.
  destruct v as [[t a] s]. rewrite resolution_V12_max.
  apply (est_equilibre_max t a s).
Qed.

(** C6. Resolution keeps the first two components and never lowers the
    third, in both versions. *)
Theorem resolution_frame (t a s : Z) :
  (let '(t', a', s') := V12.resolution (t, a, s) in t' = t ∧ a' = a ∧ s ≤ s')
  ∧ (let '(t', a', s') := V1.resolution (t, a, s) in t' = t ∧ a' = a ∧ s ≤ s').
Proof.
  rewrite resolution_V12_max, resolution_V1_max.
  repeat split; lia.
Qed.

(** C7, as the claim states it: the resolved hybrid of the thesis and
    antithesis seeds is not [(1, 1, 1)]. *)
Lemma resolution_these_antithese_not_111 :
  hybridation M_THESE M_ANTITHESE = (1, 1, 0)
  ∧ V12.resolution (hybridation M_THESE M_ANTITHESE) ≠ (1, 1, 1).
Proof. split; [reflexivity | discriminate]. Qed.

(** C7, amended. The hybrid of the thesis seed [(1,0,0)] and the
    antithesis seed [(0,1,0)] is [(1,1,0)], and resolving it raises the
    third component to [t + a = 2]: the result is [(1,1,2)]. *)
Theorem resolution_these_antithese :
  hybridation M_THESE M_ANTITHESE = (1, 1, 0)
  ∧ V12.resolution (hybridation M_THESE M_ANTITHESE) = (1, 1, 2)
  ∧ V1.resolution (hybridation M_THESE M_ANTITHESE) = (1, 1, 2).
Proof. repeat split. Qed.

(** ** One pass over the pairs *)

Lemma hybridation_comm (v1 v2 : Vector) : hybridation v1 v2 = hybridation v2 v1.
Proof.
  destruct v1 as [[t1 a1] s1], v2 as [[t2 a2] s2]. simpl. f_equal; [f_equal|]; lia.
Qed.

Lemma elem_of_paires_inv (l : list Vector) (x y : Vector) :
  (x, y) ∈ paires l → x ∈ l ∧ y ∈ l.
Proof.
  induction l as [|z l IH]; simpl.
  - intros H. by apply not_elem_of_nil in H.
  - rewrite elem_of_cons, elem_of_app, list_elem_of_fmap.
    intros [Heq | [(w & Heq & Hw) | Hin]].
    + injection Heq as -> ->. split; left.
    + injection Heq as -> ->. split; [left | by right].
    + destruct (IH Hin). split; by right.
Qed.

Lemma elem_of_paires_diag (l : list Vector) (x : Vector) :
  x ∈ l → (x, x) ∈ paires l.
Proof.
  induction l as [|z l IH]; simpl.
  - intros H. by apply not_elem_of_nil in H.
  - rewrite elem_of_cons. intros [-> | Hin]; [left|].
    right. apply elem_of_app. right. by apply IH.
Qed.

(** Every two members of the list meet in one order or the other. *)
Lemma elem_of_paires_sym (l : list Vector) (x y : Vector) :
  x ∈ l → y ∈ l → (x, y) ∈ paires l ∨ (y, x) ∈ paires l.
Proof.
  induction l as [|z l IH]; simpl.
  - intros H. by apply not_elem_of_nil in H.
  - rewrite !elem_of_cons. intros [-> | Hx] [-> | Hy].
    + by left; left.
    + left. right. apply elem_of_app. left. apply list_elem_of_fmap. eauto.
    + right. right. apply elem_of_app. left. apply list_elem_of_fmap. eauto.
    + destruct (IH Hx Hy) as [H | H]; [left | right];
        right; apply elem_of_app; by right.
Qed.

Section Passe.
Variable resolution : Vector → Vector.

Lemma elem_of_foldl_balayer (etats : gset Vector)
    (ps : list (Vector * Vector)) (acc : gset Vector) (v : Vector) :
  v ∈ foldl (λ (nouveaux : gset Vector) '(s1, s2),
               let hybrid := hybridation s1 s2 in
               let stable := resolution hybrid in
               if decide (stable ∈ etats) then nouveaux
               else nouveaux ∪ {[stable]}) acc ps
  ↔ v ∈ acc ∨ ((v ∉ etats) ∧ ∃ s1 s2, (s1, s2) ∈ ps
                                   ∧ v = resolution (hybridation s1 s2)).
Proof.
  revert acc. induction ps as [|[s1 s2] ps IH]; intros acc; simpl.
  - split; [by left|]. intros [H | (_ & x & y & H & _)]; [done|].
    by apply not_elem_of_nil in H.
  - rewrite IH. clear IH. split.
    + intros [Hacc | (Hv & x & y & Hin & Heq)].
      * destruct (decide (resolution (hybridation s1 s2) ∈ etats)) as [Hd|Hd].
        { by left. }
        apply elem_of_union in Hacc as [Hacc | Hnew]; [by left|].
        apply elem_of_singleton in Hnew as ->.
        right. split; [done|]. exists s1, s2. split; [left | done].
      * right. split; [done|]. exists x, y. split; [by right | done].
    + intros [Hacc | (Hv & x & y & Hin & Heq)].
      * left. destruct (decide (resolution (hybridation s1 s2) ∈ etats));
          [done | set_solver].
      * apply elem_of_cons in Hin as [Hhd | Htl].
        -- injection Hhd as -> ->. left. subst v.
           destruct (decide (resolution (hybridation s1 s2) ∈ etats));
             [done | set_solver].
        -- right. split; [done|]. by exists x, y.
Qed.

(** What a pass finds does not depend on the order in which the known
    states are listed: for any enumeration [l] of [etats], the new set
    holds the resolved hybrids of two known states that are not known
    yet. *)
Lemma elem_of_balayer (l : list Vector) (etats : gset Vector) (v : Vector) :
  (∀ x, x ∈ l ↔ x ∈ etats) →
  v ∈ balayer resolution l etats
  ↔ (v ∉ etats) ∧ ∃ s1 s2, s1 ∈ etats ∧ s2 ∈ etats
                        ∧ v = resolution (hybridation s1 s2).
Proof.
  intros Hl. unfold balayer. rewrite elem_of_foldl_balayer. split.
  - intros [H | (Hv & x & y & Hin & Heq)]; [set_solver|].
    apply elem_of_paires_inv in Hin as [Hx Hy].
    split; [done|]. exists x, y. by rewrite <- !Hl.
  - intros (Hv & x & y & Hx & Hy & Heq). right. split; [done|].
    apply Hl in Hx, Hy.
    destruct (elem_of_paires_sym l x y Hx Hy) as [H | H].
    + by exists x, y.
    + exists y, x. split; [done|]. by rewrite hybridation_comm.
Qed.

Lemma elem_of_nouveaux_etats (etats : gset Vector) (v : Vector) :
  v ∈ nouveaux_etats resolution etats
  ↔ (v ∉ etats) ∧ ∃ s1 s2, s1 ∈ etats ∧ s2 ∈ etats
                        ∧ v = resolution (hybridation s1 s2).
Proof. apply elem_of_balayer. intros x. apply elem_of_elements. Qed.

Lemma balayer_permutation (l : list Vector) (etats : gset Vector) :
  l ≡ₚ elements etats → balayer resolution l etats = nouveaux_etats resolution etats.
Proof.
  intros Hp. apply set_eq. intros v.
  rewrite elem_of_nouveaux_etats. apply elem_of_balayer.
  intros x. rewrite Hp. apply elem_of_elements.
Qed.
End Passe.

(** ** What a pass adds, when resolution computes [max(s, t + a)] *)

Section Croissance.
Variable resolution : Vector → Vector.
Hypothesis resolution_max :
  ∀ t a s, resolution (t, a, s) = (t, a, Z.max s (t + a)).

Lemma resolution_est_equilibre (v : Vector) :
  est_equilibre (resolution v) = true.
Proof.
  destruct v as [[t a] s]. rewrite resolution_max. apply est_equilibre_max.
Qed.

Lemma nouveaux_etats_equilibre (etats : gset Vector) (v : Vector) :
  v ∈ nouveaux_etats resolution etats → est_equilibre v = true.
Proof.
  rewrite elem_of_nouveaux_etats. intros (_ & s1 & s2 & _ & _ & ->).
  apply resolution_est_equilibre.
Qed.

Lemma nouveaux_etats_disjoint (etats : gset Vector) :
  nouveaux_etats resolution etats ## etats.
Proof.
  intros v Hn Hv. apply elem_of_nouveaux_etats in Hn as [Hn _]. done.
Qed.

(** A known state with the largest third component, doubled and
    resolved, is not known: as long as some known state has a positive
    third component, a pass finds something. *)
Lemma nouveaux_etats_non_vide (etats : gset Vector) (v0 : Vector) :
  v0 ∈ etats → 0 < v0.2 → nouveaux_etats resolution etats ≠ ∅.
Proof.
  intros Hv0 Hpos.
  set (R := λ v w : Vector, w.2 ≤ v.2).
  assert (HR : Transitive R) by (intros x y z ??; unfold R in *; lia).
  assert (HD : ∀ x y, Decision (R x y)) by (intros; unfold R; apply _).
  destruct (minimal_exists_elem_of_L R etats) as (vm & Hvm & Hmin).
  { intros Hempty. rewrite Hempty in Hv0. set_solver. }
  assert (Hmax : ∀ w, w ∈ etats → w.2 ≤ vm.2).
  { intros w Hw. destruct (Z.le_gt_cases w.2 vm.2) as [|Hlt]; [done|].
    apply (Hmin w Hw). unfold R. lia. }
  pose proof (Hmax v0 Hv0) as Hv0m.
  destruct vm as [[t a] s]. simpl in *.
  assert (Hnew : resolution (hybridation (t, a, s) (t, a, s))
                 ∈ nouveaux_etats resolution etats).
  { apply elem_of_nouveaux_etats. split.
    - simpl. rewrite resolution_max. intros Hin.
      apply Hmax in Hin. simpl in Hin. lia.
    - by exists (t, a, s), (t, a, s). }
  intros Hempty. rewrite Hempty in Hnew. set_solver.
Qed.
End Croissance.

(** ** The loop of version 1.2 *)

Lemma nouveaux_etats_V1_V12 (etats : gset Vector) :
  nouveaux_etats V1.resolution etats = nouveaux_etats V12.resolution etats.
Proof.
  apply set_eq. intros v. rewrite !elem_of_nouveaux_etats.
  split; intros (Hv & s1 & s2 & H1 & H2 & ->); (split; [done|]);
    exists s1, s2; destruct (hybridation s1 s2) as [[t a] s];
    by rewrite resolution_V12_max, resolution_V1_max.
Qed.

Lemma size_nouveaux_zero (X : gset Vector) : size X = 0%nat ↔ X = ∅.
Proof. rewrite size_empty_iff. by unfold_leibniz. Qed.

Lemma V12_boucle_stop (n : nat) (etats : gset Vector) (historique : list nat) :
  nouveaux_etats V12.resolution etats = ∅ →
  V12.boucle (S n) etats historique = (historique, etats).
Proof. intros H. simpl. rewrite H. by rewrite decide_True. Qed.

Lemma V12_boucle_continue (n : nat) (etats : gset Vector) (historique : list nat) :
  nouveaux_etats V12.resolution etats ≠ ∅ →
  V12.boucle (S n) etats historique
  = V12.boucle n (etape V12.resolution etats)
      (historique ++ [size (nouveaux_etats V12.resolution etats)]).
Proof. intros H. simpl. by rewrite decide_False. Qed.

Lemma etats_apres_succ (resolution : Vector → Vector) (i : nat)
    (etats : gset Vector) :
  etats_apres resolution (S i) etats
  = etats_apres resolution i (etape resolution etats).
Proof. unfold etats_apres. apply Nat.iter_succ_r. Qed.

Lemma croissances_succ (resolution : Vector → Vector) (k : nat)
    (etats : gset Vector) :
  croissances resolution (S k) etats
  = size (nouveaux_etats resolution etats)
      :: croissances resolution k (etape resolution etats).
Proof.
  unfold croissances. simpl. f_equal.
  rewrite <- seq_shift, map_map. apply map_ext. intros i.
  by rewrite etats_apres_succ.
Qed.

(** The loop of version 1.2 run from any state set and history: it
    performs some number [k] of growing passes, at most the budget,
    records exactly their sizes, and if it stopped before the budget ran
    out then pass [k] found nothing and left no entry. *)
Lemma V12_boucle_trace (n : nat) (etats : gset Vector) (historique : list nat) :
  ∃ k : nat,
    (k ≤ n)%nat
    ∧ V12.boucle n etats historique
      = (historique ++ croissances V12.resolution k etats,
         etats_apres V12.resolution k etats)
    ∧ (∀ i, (i < k)%nat →
          nouveaux_etats V12.resolution (etats_apres V12.resolution i etats) ≠ ∅)
    ∧ ((k < n)%nat →
          nouveaux_etats V12.resolution (etats_apres V12.resolution k etats) = ∅).
Proof.
  revert etats historique. induction n as [|n IH]; intros etats historique.
  - exists 0%nat. simpl. rewrite app_nil_r. repeat split; lia.
  - destruct (decide (nouveaux_etats V12.resolution etats = ∅)) as [He|Hne].
    + exists 0%nat. rewrite V12_boucle_stop by done. simpl. rewrite app_nil_r.
      repeat split; [lia | lia | done].
    + rewrite V12_boucle_continue by done.
      destruct (IH (etape V12.resolution etats)
                  (historique ++ [size (nouveaux_etats V12.resolution etats)]))
        as (k & Hk & Heq & Hgrow & Hstop).
      exists (S k). split; [lia|]. split; [|split].
      * rewrite Heq, croissances_succ, etats_apres_succ.
        by rewrite <- app_assoc.
      * intros [|i] Hi; [done|]. rewrite etats_apres_succ. apply Hgrow. lia.
      * intros Hlt. rewrite etats_apres_succ. apply Hstop. lia.
Qed.

(** As long as a known state has a positive third component the two
    loops never stop early, and then they do the same thing. *)
Lemma V1_boucle_eq_V12 (n : nat) (etats : gset Vector) (h : list nat)
    (v0 : Vector) :
  v0 ∈ etats → 0 < v0.2 → V1.boucle n etats h = V12.boucle n etats h.
Proof.
  revert etats h. induction n as [|n IH]; intros etats h Hv0 Hpos; [done|].
  pose proof (nouveaux_etats_non_vide V12.resolution resolution_V12_max
                etats v0 Hv0 Hpos) as Hne.
  rewrite V12_boucle_continue by done. simpl.
  rewrite nouveaux_etats_V1_V12.
  rewrite decide_False by (by rewrite size_nouveaux_zero).
  apply IH; [|done]. unfold etape. set_solver.
Qed.

Lemma M_SYNTHESE_de_base : M_SYNTHESE ∈ etats_de_base.
Proof. unfold etats_de_base. set_solver. Qed.

Lemma V1_generer_eq_V12 (max_iterations : Z) :
  V1.generer_hybridations max_iterations
  = V12.generer_hybridations max_iterations.
Proof.
  apply (V1_boucle_eq_V12 _ _ _ M_SYNTHESE M_SYNTHESE_de_base). simpl. lia.
Qed.

Lemma V12_boucle_superset (n : nat) (etats : gset Vector) (h : list nat) :
  etats ⊆ (V12.boucle n etats h).2.
Proof.
  destruct (V12_boucle_trace n etats h) as (k & _ & -> & _). simpl. clear.
  unfold etats_apres.
  induction k as [|k IH]; [done|]. simpl. unfold etape at 1. set_solver.
Qed.

(** Whatever the loop adds is balanced. *)
Lemma V12_boucle_base_ou_equilibre (n : nat) (etats : gset Vector)
    (h : list nat) (v : Vector) :
  v ∈ (V12.boucle n etats h).2 → v ∈ etats ∨ est_equilibre v = true.
Proof.
  destruct (V12_boucle_trace n etats h) as (k & _ & -> & _). simpl. clear.
  unfold etats_apres.
  induction k as [|k IH]; [by left|]. simpl. unfold etape at 1.
  rewrite elem_of_union. intros [Hv | Hv]; [by apply IH|].
  right. by apply (nouveaux_etats_equilibre V12.resolution resolution_V12_max) in Hv.
Qed.

Lemma size_nouveaux_non_zero (X : gset Vector) : X ≠ ∅ → size X ≠ 0%nat.
Proof. intros H Hs. by apply size_nouveaux_zero in Hs. Qed.

Lemma croissances_length (resolution : Vector → Vector) (k : nat)
    (etats : gset Vector) :
  length (croissances resolution k etats) = k.
Proof. unfold croissances. by rewrite length_map, length_seq. Qed.

Lemma croissances_non_zero (resolution : Vector → Vector) (k : nat)
    (etats : gset Vector) :
  (∀ i, (i < k)%nat →
        nouveaux_etats resolution (etats_apres resolution i etats) ≠ ∅) →
  Forall (λ x, x ≠ 0%nat) (croissances resolution k etats).
Proof.
  intros Hgrow. apply Forall_forall. intros x Hx.
  apply list_elem_of_fmap in Hx as (i & -> & Hi).
  apply size_nouveaux_non_zero, Hgrow.
  apply list_elem_of_In, in_seq in Hi. lia.
Qed.

(** ** The claims about the closure *)

(** C2. In version 1.2 a pass that finds no new vector ends the loop and
    leaves no entry: run from any state set with any budget [n], the loop
    makes [k <= n] passes that each find something, appends exactly their
    sizes (so none is zero), and if [k < n] the pass after them found
    nothing. The history returned by [generer_hybridations] is therefore
    no longer than the budget and holds no zero; version 1.1, started from
    the same seeds, returns the same history and states. *)
Theorem historique_iterations_productives :
  (∀ (n : nat) (etats : gset Vector) (historique : list nat),
      ∃ k : nat,
        (k ≤ n)%nat
        ∧ V12.boucle n etats historique
          = (historique ++ croissances V12.resolution k etats,
             etats_apres V12.resolution k etats)
        ∧ (∀ i, (i < k)%nat →
              nouveaux_etats V12.resolution
                (etats_apres V12.resolution i etats) ≠ ∅)
        ∧ ((k < n)%nat →
              nouveaux_etats V12.resolution
                (etats_apres V12.resolution k etats) = ∅)
        ∧ length (croissances V12.resolution k etats) = k
        ∧ Forall (λ x, x ≠ 0%nat) (croissances V12.resolution k etats))
  ∧ (∀ max_iterations : Z,
        (length (V12.generer_hybridations max_iterations).1
           ≤ Z.to_nat max_iterations)%nat
        ∧ Forall (λ x, x ≠ 0%nat) (V12.generer_hybridations max_iterations).1
        ∧ V1.generer_hybridations max_iterations
          = V12.generer_hybridations max_iterations).
Proof.
  split.
  - intros n etats historique.
    destruct (V12_boucle_trace n etats historique)
      as (k & Hk & Heq & Hgrow & Hstop).
    exists k. repeat split; try done.
    + apply croissances_length.
    + by apply croissances_non_zero.
  - intros m. unfold V12.generer_hybridations.
    destruct (V12_boucle_trace (Z.to_nat m) etats_de_base [])
      as (k & Hk & Heq & Hgrow & _).
    split; [|split].
    + rewrite Heq. simpl. by rewrite croissances_length.
    + rewrite Heq. simpl. by apply croissances_non_zero.
    + apply V1_generer_eq_V12.
Qed.

(** The early exit is live code: from the single state [(0,0,0)] the first
    pass finds nothing. Version 1.2 records nothing; version 1.1, which
    appends before it tests, records a zero. No call of
    [generer_hybridations] reaches this state, see [V1_generer_eq_V12]. *)
Example boucle_point_fixe :
  V12.boucle 5 {[ (0, 0, 0) ]} [] = ([], {[ (0, 0, 0) ]})
  ∧ V1.boucle 5 {[ (0, 0, 0) ]} [] = ([0%nat], {[ (0, 0, 0) ]}).
Proof. split; vm_compute; reflexivity. Qed.

Example generer_hybridations_2 :
  (V12.generer_hybridations 2).1 = [6%nat; 21%nat]
  ∧ size (V12.generer_hybridations 2).2 = 30%nat.
Proof. split; vm_compute; reflexivity. Qed.

Lemma etats_de_base_elem (v : Vector) :
  v ∈ etats_de_base ↔ v = M_THESE ∨ v = M_ANTITHESE ∨ v = M_SYNTHESE.
Proof.
  unfold etats_de_base. rewrite !elem_of_union, !elem_of_singleton. tauto.
Qed.

(** From the seeds every pass finds something, so the history is as long
    as the budget. *)
Lemma V12_boucle_longueur (n : nat) (etats : gset Vector) (h : list nat)
    (v0 : Vector) :
  v0 ∈ etats → 0 < v0.2 →
  length (V12.boucle n etats h).1 = (length h + n)%nat.
Proof.
  revert etats h. induction n as [|n IH]; intros etats h Hv0 Hpos.
  - simpl. lia.
  - rewrite V12_boucle_continue
      by exact (nouveaux_etats_non_vide V12.resolution resolution_V12_max
                  etats v0 Hv0 Hpos).
    rewrite IH; [|unfold etape; set_solver|done].
    rewrite length_app. simpl. lia.
Qed.

Lemma V12_generer_longueur (max_iterations : Z) :
  length (V12.generer_hybridations max_iterations).1 = Z.to_nat max_iterations.
Proof.
  unfold V12.generer_hybridations.
  by rewrite (V12_boucle_longueur _ _ _ M_SYNTHESE M_SYNTHESE_de_base).
Qed.

(** C10. For a non-negative budget, every vector of the returned state
    set is one of the three seeds or is balanced, and the two unbalanced
    seeds [(1,0,0)] and [(0,1,0)] are in it, as they were given; this
    holds of version 1.2 and of version 1.1. *)
Theorem etats_finaux_base_ou_equilibres (max_iterations : Z) :
  0 ≤ max_iterations →
  let etats := (V12.generer_hybridations max_iterations).2 in
  (∀ v, v ∈ etats →
        v = (1, 0, 0) ∨ v = (0, 1, 0) ∨ v = (0, 0, 1)
        ∨ (let '(t, a, s) := v in t + a ≤ s))
  ∧ (1, 0, 0) ∈ etats ∧ (0, 1, 0) ∈ etats
  ∧ est_equilibre (1, 0, 0) = false ∧ est_equilibre (0, 1, 0) = false
  ∧ (V1.generer_hybridations max_iterations).2 = etats.
Proof.
  intros _ etats. subst etats. unfold V12.generer_hybridations.
  split; [|split; [|split]].
  - intros v Hv. apply V12_boucle_base_ou_equilibre in Hv as [Hv | Hv].
    + apply etats_de_base_elem in Hv. unfold M_THESE, M_ANTITHESE, M_SYNTHESE in Hv.
      tauto.
    + do 3 right. destruct v as [[t a] s].
      apply verifier_axiome_spec in Hv. lia.
  - apply V12_boucle_superset, etats_de_base_elem. by left.
  - apply V12_boucle_superset, etats_de_base_elem. right; by left.
  - repeat split. f_equal. apply V1_generer_eq_V12.
Qed.

Lemma etats_finaux_base_ou_equilibres_witness :
  0 ≤ 1
  ∧ (0, 1, 0) ∈ (V12.generer_hybridations 1).2
  ∧ (V1.generer_hybridations 1).2 = (V12.generer_hybridations 1).2.
Proof.
  split; [lia|].
  pose proof (etats_finaux_base_ou_equilibres 1 ltac:(lia)) as H.
  simpl in H. tauto.
Defined.

(** C1, evaluated on the code. For every budget the returned state set
    contains the three seeds, and two of them, [(1,0,0)] and [(0,1,0)],
    fail the balance predicate: the returned set is not a set of balanced
    states. *)
Theorem etats_finaux_non_equilibres (max_iterations : Z) :
  let etats := (V12.generer_hybridations max_iterations).2 in
  etats_de_base ⊆ etats
  ∧ M_THESE ∈ etats ∧ est_equilibre M_THESE = false
  ∧ M_ANTITHESE ∈ etats ∧ est_equilibre M_ANTITHESE = false.
Proof.
  simpl. unfold V12.generer_hybridations.
  pose proof (V12_boucle_superset (Z.to_nat max_iterations) etats_de_base [])
    as Hsub.
  repeat split; try done.
  - apply Hsub, etats_de_base_elem. by left.
  - apply Hsub, etats_de_base_elem. right; by left.
Qed.

(** C8, as the claim states it: a call with budget [-1] returns the seeds
    and an empty history, and no negative budget is rejected. *)
Lemma budget_negatif_non_rejete :
  V12.appel_generer_hybridations (-1) = Retour ([], etats_de_base)
  ∧ V12.appel_generer_hybridations (-1) ≠ ArgumentInvalide
  ∧ ¬ (∃ max_iterations : Z,
          max_iterations < 0
          ∧ ∀ r, V12.appel_generer_hybridations max_iterations ≠ Retour r).
Proof.
  split; [reflexivity|]. split; [discriminate|].
  intros (m & _ & H). by apply (H (V12.generer_hybridations m)).
Qed.

(** C8, amended. A call with a negative budget is not rejected: like a
    call with budget 0 it makes no pass and returns normally, with an
    empty history and the three seeds as state set, in both versions. *)
Theorem budget_negatif_sans_iteration (max_iterations : Z) :
  max_iterations ≤ 0 →
  V12.appel_generer_hybridations max_iterations = Retour ([], etats_de_base)
  ∧ V1.appel_generer_hybridations max_iterations = Retour ([], etats_de_base).
Proof.
  intros Hneg.
  unfold V12.appel_generer_hybridations, V1.appel_generer_hybridations,
    V12.generer_hybridations, V1.generer_hybridations.
  by rewrite Z2Nat.nonpos.
Qed.

Lemma budget_negatif_sans_iteration_witness :
  -1 ≤ 0
  ∧ V12.appel_generer_hybridations (-1) = Retour ([], etats_de_base)
  ∧ V1.appel_generer_hybridations (-1) = Retour ([], etats_de_base).
Proof. split; [lia | apply (budget_negatif_sans_iteration (-1)); lia]. Defined.

(** ** The cube report *)

(** C3. [analyser_cube_27] reports 27 points, 729 ordered pairs and 243
    valid anchors, which is the number of ordered pairs [(p1, p2)] of cube
    points with [p1[1] = p2[0]]; the ratio it computes rounds to 33.33
    (3333 hundredths), and the reported percentage is the float nearest
    to 33.33. *)
Theorem analyser_cube_27_valeurs :
  let r := V12.analyser_cube_27 in
  nombre_points r = 27%nat
  ∧ total_paires r = 729
  ∧ ancrages_valides r = 243
  ∧ ancrages_valides r
    = Z.of_nat (length (filter (λ p : Vector * Vector, p.1.1.2 = p.2.1.1)
                          (list_prod generer_cube_27 generer_cube_27)))
  ∧ ratio_percentage r = Flottant.round2 (V12.ratio_cube 243 729)
  ∧ Flottant.centiemes (V12.ratio_cube 243 729) = Some 3333
  ∧ ratio_percentage r = Flottant.truediv 3333 100.
Proof. repeat split; vm_compute; reflexivity. Qed.

(** ** Further properties of the operators *)

(** X1. Hybridation is a commutative monoid operation on vectors: it is
    commutative and associative, and [(0,0,0)] is neutral. *)
Theorem hybridation_monoide (v1 v2 v3 : Vector) :
  hybridation v1 v2 = hybridation v2 v1
  ∧ hybridation v1 (hybridation v2 v3) = hybridation (hybridation v1 v2) v3
  ∧ hybridation (0, 0, 0) v1 = v1
  ∧ hybridation v1 (0, 0, 0) = v1.
Proof.
  split; [apply hybridation_comm|].
  destruct v1 as [[t1 a1] s1], v2 as [[t2 a2] s2], v3 as [[t3 a3] s3]. simpl.
  by rewrite !Z.add_assoc, !Z.add_0_r.
Qed.

(** X2. The hybrid of two balanced vectors is balanced, so resolution
    returns it unchanged: tension only comes from unbalanced operands. *)
Theorem hybridation_equilibre (v1 v2 : Vector) :
  est_equilibre v1 = true → est_equilibre v2 = true →
  est_equilibre (hybridation v1 v2) = true
  ∧ V12.resolution (hybridation v1 v2) = hybridation v1 v2
  ∧ V1.resolution (hybridation v1 v2) = hybridation v1 v2.
Proof.
  destruct v1 as [[t1 a1] s1], v2 as [[t2 a2] s2].
  unfold est_equilibre, hybridation.
  rewrite !verifier_axiome_spec. intros H1 H2.
  rewrite resolution_V12_max, resolution_V1_max.
  rewrite Z.max_l by lia. repeat split; lia.
Qed.

Lemma hybridation_equilibre_witness :
  est_equilibre (1, 1, 2) = true ∧ est_equilibre (0, 0, 1) = true
  ∧ V12.resolution (hybridation (1, 1, 2) (0, 0, 1)) = (1, 1, 3).
Proof.
  split; [reflexivity|]. split; [reflexivity|].
  apply (hybridation_equilibre (1, 1, 2) (0, 0, 1)); reflexivity.
Defined.

(** X3. The fixed points of resolution are exactly the balanced vectors,
    in both versions. *)
Theorem resolution_point_fixe (v : Vector) :
  (V12.resolution v = v ↔ est_equilibre v = true)
  ∧ (V1.resolution v = v ↔ est_equilibre v = true).
Proof.
  destruct v as [[t a] s]. rewrite resolution_V12_max, resolution_V1_max.
  unfold est_equilibre. rewrite verifier_axiome_spec.
  split; (split; [intros [= H]; lia | intros H; f_equal; lia]).
Qed.

(** X4. Resolution makes the least correction: among the balanced vectors
    with the same first two components and a third component not below
    the given one, its output has the smallest third component. *)
Theorem resolution_minimale (t a s s' : Z) :
  s ≤ s' → est_equilibre (t, a, s') = true →
  (V12.resolution (t, a, s)).2 ≤ s' ∧ (V1.resolution (t, a, s)).2 ≤ s'.
Proof.
  unfold est_equilibre. rewrite verifier_axiome_spec. intros Hs Hb.
  rewrite resolution_V12_max, resolution_V1_max. simpl. lia.
Qed.

Lemma resolution_minimale_witness :
  0 ≤ 5 ∧ est_equilibre (1, 1, 5) = true ∧ (V12.resolution (1, 1, 0)).2 ≤ 5.
Proof.
  split; [lia|]. split; [reflexivity|].
  apply (resolution_minimale 1 1 0 5); [lia | reflexivity].
Defined.

(** X5. Resolving after hybridation never costs more than resolving
    before: the resolved hybrid has the first two components of the
    hybrid of the two resolved vectors and a third component that is not
    larger, and that hybrid of resolved vectors needs no resolution. *)
Theorem resolution_hybridation_sous_additive (v1 v2 : Vector) :
  let avant := hybridation (V12.resolution v1) (V12.resolution v2) in
  let apres := V12.resolution (hybridation v1 v2) in
  apres.1 = avant.1 ∧ apres.2 ≤ avant.2 ∧ V12.resolution avant = avant.
Proof.
  destruct v1 as [[t1 a1] s1], v2 as [[t2 a2] s2].
  unfold hybridation. rewrite !resolution_V12_max. simpl.
  repeat split; [lia|]. f_equal. lia.
Qed.

(** ** Further properties of the closure *)

(** X6. A pass does not depend on how the known states are listed: for
    any list with the same members as [etats], in any order and with any
    repetitions, the scan finds the same new set as with [list(etats)],
    namely the resolved hybrids of two known states that are not known. *)
Theorem balayer_ordre_indifferent (resolution : Vector → Vector)
    (l : list Vector) (etats : gset Vector) :
  (∀ x, x ∈ l ↔ x ∈ etats) →
  balayer resolution l etats = nouveaux_etats resolution etats
  ∧ ∀ v, v ∈ balayer resolution l etats
         ↔ (v ∉ etats) ∧ ∃ s1 s2, s1 ∈ etats ∧ s2 ∈ etats
                                 ∧ v = resolution (hybridation s1 s2).
Proof.
  intros Hl. split.
  - apply set_eq. intros v. rewrite elem_of_nouveaux_etats.
    by apply elem_of_balayer.
  - intros v. by apply elem_of_balayer.
Qed.

Lemma balayer_ordre_indifferent_witness :
  balayer V12.resolution [(0, 0, 1); (1, 0, 0); (0, 0, 1)]
          {[ (1, 0, 0); (0, 0, 1) ]}
  = nouveaux_etats V12.resolution {[ (1, 0, 0); (0, 0, 1) ]}.
Proof.
  apply (balayer_ordre_indifferent V12.resolution
           [(0, 0, 1); (1, 0, 0); (0, 0, 1)] {[ (1, 0, 0); (0, 0, 1) ]}).
  intros x. rewrite !elem_of_cons, elem_of_nil, elem_of_union,
    !elem_of_singleton. tauto.
Defined.

Lemma size_etape (etats : gset Vector) :
  size (etape V12.resolution etats)
  = (size etats + size (nouveaux_etats V12.resolution etats))%nat.
Proof.
  unfold etape. apply size_union. symmetry.
  apply (nouveaux_etats_disjoint V12.resolution).
Qed.

Lemma V12_boucle_taille (n : nat) (etats : gset Vector) (h : list nat) :
  (size (V12.boucle n etats h).2 + sum_list h
   = size etats + sum_list (V12.boucle n etats h).1)%nat.
Proof.
  revert etats h. induction n as [|n IH]; intros etats h; [done|].
  destruct (decide (nouveaux_etats V12.resolution etats = ∅)) as [He|Hne].
  - by rewrite V12_boucle_stop.
  - rewrite V12_boucle_continue by done.
    pose proof (IH (etape V12.resolution etats)
                  (h ++ [size (nouveaux_etats V12.resolution etats)])) as H.
    rewrite size_etape, sum_list_with_app in H. simpl in H. lia.
Qed.

(** X7. The history accounts for every state: the returned set has as
    many vectors as the three seeds plus the sum of the history, in both
    versions, because a pass only counts vectors that were not known. *)
Theorem taille_etats_finaux (max_iterations : Z) :
  size (V12.generer_hybridations max_iterations).2
  = (3 + sum_list (V12.generer_hybridations max_iterations).1)%nat
  ∧ size (V1.generer_hybridations max_iterations).2
    = (3 + sum_list (V1.generer_hybridations max_iterations).1)%nat.
Proof.
  rewrite V1_generer_eq_V12.
  pose proof (V12_boucle_taille (Z.to_nat max_iterations) etats_de_base [])
    as H.
  unfold V12.generer_hybridations.
  assert (Hbase : size etats_de_base = 3%nat) by (by vm_compute).
  rewrite Hbase in H. simpl in H. lia.
Qed.

(** Started from a set with a state of positive third component, the
    loop of version 1.2 uses its whole budget. *)
Lemma V12_boucle_sans_arret (n : nat) (etats : gset Vector) (h : list nat)
    (v0 : Vector) :
  v0 ∈ etats → 0 < v0.2 →
  V12.boucle n etats h
  = (h ++ croissances V12.resolution n etats,
     etats_apres V12.resolution n etats).
Proof.
  revert etats h. induction n as [|n IH]; intros etats h Hv0 Hpos.
  - simpl. by rewrite app_nil_r.
  - rewrite V12_boucle_continue
      by exact (nouveaux_etats_non_vide V12.resolution resolution_V12_max
                  etats v0 Hv0 Hpos).
    rewrite IH; [|unfold etape; set_solver|done].
    by rewrite croissances_succ, etats_apres_succ, <- app_assoc.
Qed.

Lemma V12_generer_forme_close (max_iterations : Z) :
  V12.generer_hybridations max_iterations
  = (croissances V12.resolution (Z.to_nat max_iterations) etats_de_base,
     etats_apres V12.resolution (Z.to_nat max_iterations) etats_de_base).
Proof.
  unfold V12.generer_hybridations.
  by rewrite (V12_boucle_sans_arret _ _ _ M_SYNTHESE M_SYNTHESE_de_base).
Qed.

Lemma etats_apres_subseteq (n : nat) (etats : gset Vector) :
  etats ⊆ etats_apres V12.resolution n etats.
Proof.
  unfold etats_apres. induction n as [|n IH]; [done|]. simpl.
  unfold etape at 1. set_solver.
Qed.

(** X8. From the seeds the closure never stabilises: whatever the budget,
    the history has exactly [max_iterations] entries (none for a negative
    budget), and one more pass over the returned set would still find
    new vectors. Both versions. *)
Theorem generation_sans_point_fixe (max_iterations : Z) :
  length (V12.generer_hybridations max_iterations).1
  = Z.to_nat max_iterations
  ∧ length (V1.generer_hybridations max_iterations).1
    = Z.to_nat max_iterations
  ∧ nouveaux_etats V12.resolution
      (V12.generer_hybridations max_iterations).2 ≠ ∅.
Proof.
  rewrite V1_generer_eq_V12, V12_generer_forme_close. simpl.
  rewrite croissances_length. repeat split.
  apply (nouveaux_etats_non_vide V12.resolution resolution_V12_max _ M_SYNTHESE).
  - apply etats_apres_subseteq, M_SYNTHESE_de_base.
  - simpl. lia.
Qed.

Lemma etats_apres_plus (n d : nat) (etats : gset Vector) :
  etats_apres V12.resolution (n + d) etats
  = etats_apres V12.resolution d (etats_apres V12.resolution n etats).
Proof.
  unfold etats_apres. rewrite Nat.add_comm. apply Nat.iter_add.
Qed.

Lemma croissances_plus (n d : nat) (etats : gset Vector) :
  croissances V12.resolution (n + d) etats
  = croissances V12.resolution n etats
      ++ croissances V12.resolution d (etats_apres V12.resolution n etats).
Proof.
  revert etats. induction n as [|n IH]; intros etats; [done|].
  change (S n + d)%nat with (S (n + d)).
  rewrite !croissances_succ, IH, etats_apres_succ. done.
Qed.

(** X9. A larger budget only extends the result: for
    [max_iterations <= max_iterations'] the history of the smaller budget
    is a prefix of the history of the larger, and its state set is
    included in the larger one. *)
Theorem generation_monotone (max_iterations max_iterations' : Z) :
  max_iterations ≤ max_iterations' →
  (V12.generer_hybridations max_iterations).1
    `prefix_of` (V12.generer_hybridations max_iterations').1
  ∧ (V12.generer_hybridations max_iterations).2
    ⊆ (V12.generer_hybridations max_iterations').2.
Proof.
  intros Hle. rewrite !V12_generer_forme_close. simpl.
  assert (Hd : ∃ d, Z.to_nat max_iterations'
                    = (Z.to_nat max_iterations + d)%nat).
  { exists (Z.to_nat max_iterations' - Z.to_nat max_iterations)%nat. lia. }
  destruct Hd as [d ->]. rewrite croissances_plus, etats_apres_plus. split.
  - by eexists.
  - apply etats_apres_subseteq.
Qed.

Lemma generation_monotone_witness :
  1 ≤ 2
  ∧ (V12.generer_hybridations 1).1 `prefix_of` (V12.generer_hybridations 2).1
  ∧ (V12.generer_hybridations 1).2 ⊆ (V12.generer_hybridations 2).2.
Proof. split; [lia | apply (generation_monotone 1 2); lia]. Defined.

(** After [n] passes every component is non-negative and neither [t + a]
    nor [s] exceeds [2^n]. *)
Lemma etats_apres_bornes (n : nat) (v : Vector) :
  v ∈ etats_apres V12.resolution n etats_de_base →
  let '(t, a, s) := v in
  0 ≤ t ∧ 0 ≤ a ∧ 0 ≤ s ∧ t + a ≤ 2 ^ Z.of_nat n ∧ s ≤ 2 ^ Z.of_nat n.
Proof.
  revert v. induction n as [|n IH]; intros v.
  - simpl. rewrite etats_de_base_elem.
    unfold M_THESE, M_ANTITHESE, M_SYNTHESE.
    intros [-> | [-> | ->]]; lia.
  - unfold etats_apres. simpl. fold (etats_apres V12.resolution n etats_de_base).
    unfold etape at 1. rewrite elem_of_union, elem_of_nouveaux_etats.
    assert (Hpow : 2 ^ Z.of_nat (S n) = 2 * 2 ^ Z.of_nat n).
    { rewrite Nat2Z.inj_succ, Z.pow_succ_r; lia. }
    assert (Hpos : 0 < 2 ^ Z.of_nat n) by (apply Z.pow_pos_nonneg; lia).
    intros [Hv | (_ & s1 & s2 & H1 & H2 & ->)].
    + apply IH in Hv. destruct v as [[t a] s]. lia.
    + apply IH in H1, H2.
      destruct s1 as [[t1 a1] s1], s2 as [[t2 a2] s2].
      unfold hybridation. rewrite resolution_V12_max. lia.
Qed.

Lemma etats_apres_sommet (n : nat) :
  (0, 0, 2 ^ Z.of_nat n) ∈ etats_apres V12.resolution n etats_de_base.
Proof.
  induction n as [|n IH].
  - apply M_SYNTHESE_de_base.
  - unfold etats_apres. simpl. fold (etats_apres V12.resolution n etats_de_base).
    unfold etape at 1.
    destruct (decide ((0, 0, 2 ^ Z.of_nat (S n))
                      ∈ etats_apres V12.resolution n etats_de_base))
      as [Hin | Hout]; [set_solver|].
    apply elem_of_union. right. apply elem_of_nouveaux_etats.
    split; [done|].
    exists (0, 0, 2 ^ Z.of_nat n), (0, 0, 2 ^ Z.of_nat n).
    split; [done|]. split; [done|].
    unfold hybridation. rewrite resolution_V12_max.
    assert (Hpos : 0 < 2 ^ Z.of_nat n) by (apply Z.pow_pos_nonneg; lia).
    rewrite Nat2Z.inj_succ, Z.pow_succ_r by lia.
    f_equal. lia.
Qed.

(** X10. The budget bounds the magnitude of the states: with a
    non-negative budget [n], every returned vector has non-negative
    components with [t + a <= 2^n] and [s <= 2^n], and the bound is
    reached by [(0, 0, 2^n)], which is always returned. Both versions. *)
Theorem etats_finaux_bornes (max_iterations : Z) :
  0 ≤ max_iterations →
  (∀ t a s, (t, a, s) ∈ (V12.generer_hybridations max_iterations).2 →
            0 ≤ t ∧ 0 ≤ a ∧ 0 ≤ s
            ∧ t + a ≤ 2 ^ max_iterations ∧ s ≤ 2 ^ max_iterations)
  ∧ (0, 0, 2 ^ max_iterations) ∈ (V12.generer_hybridations max_iterations).2
  ∧ (V1.generer_hybridations max_iterations).2
    = (V12.generer_hybridations max_iterations).2.
Proof.
  intros Hpos. rewrite V1_generer_eq_V12, V12_generer_forme_close. simpl.
  pose proof (Z2Nat.id _ Hpos) as Hm. revert Hm.
  generalize (Z.to_nat max_iterations). intros n <-.
  split; [|split; [apply etats_apres_sommet | done]].
  intros t a s H. apply (etats_apres_bornes _ _ H).
Qed.

Lemma etats_finaux_bornes_witness :
  0 ≤ 2 ∧ (0, 0, 2 ^ 2) ∈ (V12.generer_hybridations 2).2.
Proof. split; [lia | apply (etats_finaux_bornes 2); lia]. Defined.

(** X11. When the loop of version 1.2, run from any state set, stops
    before its budget is used up, the set it returns is closed: the
    resolved hybrid of any two of its members is already a member. *)
Theorem arret_anticipe_clos (n : nat) (etats : gset Vector) (h : list nat) :
  (length (V12.boucle n etats h).1 < length h + n)%nat →
  ∀ s1 s2, s1 ∈ (V12.boucle n etats h).2 → s2 ∈ (V12.boucle n etats h).2 →
           V12.resolution (hybridation s1 s2) ∈ (V12.boucle n etats h).2.
Proof.
  destruct (V12_boucle_trace n etats h) as (k & Hk & -> & _ & Hstop). simpl.
  rewrite length_app, croissances_length. intros Hlt s1 s2 H1 H2.
  assert (Hvide : nouveaux_etats V12.resolution
                    (etats_apres V12.resolution k etats) = ∅)
    by (apply Hstop; lia).
  destruct (decide (V12.resolution (hybridation s1 s2)
                    ∈ etats_apres V12.resolution k etats)) as [|Hout]; [done|].
  assert (Hin : V12.resolution (hybridation s1 s2)
                ∈ nouveaux_etats V12.resolution
                    (etats_apres V12.resolution k etats)).
  { apply elem_of_nouveaux_etats. split; [done|]. by exists s1, s2. }
  rewrite Hvide in Hin. by apply not_elem_of_empty in Hin.
Qed.

Lemma arret_anticipe_clos_witness :
  (length (V12.boucle 5 {[ (0, 0, 0)%Z ]} []).1 < length (@nil nat) + 5)%nat
  ∧ V12.resolution (hybridation (0, 0, 0) (0, 0, 0))
    ∈ (V12.boucle 5 {[ (0, 0, 0) ]} []).2.
Proof.
  assert (H : (length (V12.boucle 5 {[ (0, 0, 0)%Z ]} []).1
               < length (@nil nat) + 5)%nat) by (vm_compute; lia).
  split; [exact H|].
  apply (arret_anticipe_clos 5 {[ (0, 0, 0) ]} [] H);
    vm_compute; set_solver.
Defined.

(** X12. The two loops, run from any state set, return the same states,
    and the histories differ only when the loop stops early: version 1.1
    then records a final 0 that version 1.2 leaves out. *)
Theorem boucle_V1_selon_V12 (n : nat) (etats : gset Vector) (h : list nat) :
  V1.boucle n etats h
  = (if (length (V12.boucle n etats h).1 <? length h + n)%nat
     then (V12.boucle n etats h).1 ++ [0%nat]
     else (V12.boucle n etats h).1,
     (V12.boucle n etats h).2).
Proof.
  revert etats h. induction n as [|n IH]; intros etats h.
  - simpl. rewrite Nat.add_0_r, Nat.ltb_irrefl. done.
  - destruct (decide (nouveaux_etats V12.resolution etats = ∅)) as [He|Hne].
    + rewrite V12_boucle_stop by done. simpl.
      rewrite nouveaux_etats_V1_V12, He.
      rewrite decide_True by apply size_empty.
      rewrite size_empty, union_empty_r_L.
      assert (Hlt : (length h <? length h + S n)%nat = true)
        by (apply Nat.ltb_lt; lia).
      by rewrite Hlt.
    + rewrite V12_boucle_continue by done. simpl.
      rewrite nouveaux_etats_V1_V12.
      rewrite decide_False by (by apply size_nouveaux_non_zero).
      rewrite IH. unfold etape. rewrite length_app. simpl.
      by replace (length h + 1 + n)%nat with (length h + S n)%nat by lia.
Qed.

(** ** Further properties of the cube and of anchoring *)

(** X13. The cube has 27 points without repetition, its points are
    exactly the triples with every component in [{0, 1, 2}], and they
    come in lexicographic order: the point of index [i] is
    [(i / 9, (i / 3) mod 3, i mod 3)]. *)
Theorem cube_27_points :
  length generer_cube_27 = 27%nat
  ∧ NoDup generer_cube_27
  ∧ (∀ t a s, (t, a, s) ∈ generer_cube_27
              ↔ (0 ≤ t ≤ 2 ∧ 0 ≤ a ≤ 2 ∧ 0 ≤ s ≤ 2))
  ∧ (∀ i : nat, (i < 27)%nat →
        generer_cube_27 !! i
        = Some (Z.of_nat i `div` 9, (Z.of_nat i `div` 3) `mod` 3,
                Z.of_nat i `mod` 3)).
Proof.
  split; [reflexivity|]. split; [|split].
  - apply (bool_decide_unpack _). by vm_compute.
  - intros t a s. split.
    + intros H. apply list_elem_of_In in H. vm_compute in H.
      repeat (destruct H as [H | H]; [injection H as <- <- <-; lia|]).
      done.
    + intros (Ht & Ha & Hs).
      assert (t = 0 ∨ t = 1 ∨ t = 2) as [-> | [-> | ->]] by lia;
        assert (a = 0 ∨ a = 1 ∨ a = 2) as [-> | [-> | ->]] by lia;
        assert (s = 0 ∨ s = 1 ∨ s = 2) as [-> | [-> | ->]] by lia;
        apply (bool_decide_unpack _); by vm_compute.
  - intros i Hi. do 27 (destruct i as [|i]; [reflexivity|]). lia.
Qed.

Lemma ancrage_valide_spec (p1 p2 : Vector) :
  ancrage_valide p1 p2 = true ↔ p1.1.2 = p2.1.1.
Proof.
  destruct p1 as [[t1 a1] s1], p2 as [[t2 a2] s2]. simpl. apply Z.eqb_eq.
Qed.

Lemma foldr_add_app (l k : list Z) :
  foldr Z.add 0 (l ++ k) = foldr Z.add 0 l + foldr Z.add 0 k.
Proof. induction l as [|x l IH]; simpl; lia. Qed.

(** The anchors of one [p1] in a list, counted the three ways. *)
Lemma compter_ligne (p1 : Vector) (l : list Vector) (acc : Z) :
  foldr Z.add 0 (p2 ← l; if ancrage_valide p1 p2 then [1] else [])
  = Z.of_nat (length (filter (λ p : Vector * Vector, p.1.1.2 = p.2.1.1)
                        (map (pair p1) l)))
  ∧ foldl (λ valid_anchors p2,
             if ancrage_valide p1 p2 then valid_anchors + 1
             else valid_anchors) acc l
    = acc + Z.of_nat (length (filter (λ p : Vector * Vector, p.1.1.2 = p.2.1.1)
                                (map (pair p1) l))).
Proof.
  revert acc. induction l as [|p2 l IH]; intros acc.
  - simpl. split; [done | lia].
  - destruct (IH acc) as [IHr _]. simpl map. rewrite filter_cons.
    change ((p2 :: l) ≫= (λ p2, if ancrage_valide p1 p2 then [1] else []))
      with ((if ancrage_valide p1 p2 then [1] else [])
              ++ (l ≫= (λ p2, if ancrage_valide p1 p2 then [1] else []))).
    rewrite foldr_add_app, IHr. simpl foldl.
    destruct (ancrage_valide p1 p2) eqn:Hanc.
    + apply ancrage_valide_spec in Hanc.
      rewrite decide_True by done.
      destruct (IH (acc + 1)) as [_ ->]. simpl. split; lia.
    + assert (Hne : ¬ (p1, p2).1.1.2 = (p1, p2).2.1.1).
      { simpl. intros Heq. apply ancrage_valide_spec in Heq. congruence. }
      rewrite decide_False by done.
      destruct (IH acc) as [_ ->]. simpl. split; lia.
Qed.

Lemma compter_produit (l1 l2 : list Vector) (acc : Z) :
  foldr Z.add 0
    (p1 ← l1; p2 ← l2; if ancrage_valide p1 p2 then [1] else [])
  = Z.of_nat (length (filter (λ p : Vector * Vector, p.1.1.2 = p.2.1.1)
                        (list_prod l1 l2)))
  ∧ foldl (λ valid_anchors p1,
             foldl (λ valid_anchors p2,
                      if ancrage_valide p1 p2 then valid_anchors + 1
                      else valid_anchors)
                   valid_anchors l2) acc l1
    = acc + Z.of_nat (length (filter (λ p : Vector * Vector, p.1.1.2 = p.2.1.1)
                                (list_prod l1 l2))).
Proof.
  revert acc. induction l1 as [|p1 l1 IH]; intros acc.
  - simpl. split; [done | lia].
  - destruct (IH acc) as [IHr _].
    change ((p1 :: l1) ≫=
              (λ p1, p2 ← l2; if ancrage_valide p1 p2 then [1] else []))
      with ((l2 ≫= (λ p2, if ancrage_valide p1 p2 then [1] else []))
              ++ (l1 ≫= (λ p1, p2 ← l2;
                                if ancrage_valide p1 p2 then [1] else []))).
    simpl list_prod.
    change (map (λ y : Vector, (p1, y)) l2) with (map (pair p1) l2).
    rewrite filter_app, length_app, foldr_add_app, IHr.
    destruct (compter_ligne p1 l2 acc) as [-> Hl]. simpl foldl.
    rewrite Hl. destruct (IH (acc + Z.of_nat
      (length (filter (λ p : Vector * Vector, p.1.1.2 = p.2.1.1)
                 (map (pair p1) l2))))) as [_ ->].
    split; lia.
Qed.

(** X14. On every list of vectors, the generator sum of version 1.2 and
    the counting loops of version 1.1 both return the number of ordered
    pairs [(p1, p2)] of the list with [p1[1] = p2[0]], which lies between
    0 and the square of the length. *)
Theorem compter_ancrages_paires (cube : list Vector) :
  compter_ancrages cube
  = Z.of_nat (length (filter (λ p : Vector * Vector, p.1.1.2 = p.2.1.1)
                        (list_prod cube cube)))
  ∧ V1.compter_boucles cube = compter_ancrages cube
  ∧ 0 ≤ compter_ancrages cube ≤ Z.of_nat (length cube) ^ 2.
Proof.
  unfold compter_ancrages, V1.compter_boucles.
  destruct (compter_produit cube cube 0) as [-> ->].
  split; [done|]. split; [lia|].
  pose proof (length_filter (λ p : Vector * Vector, p.1.1.2 = p.2.1.1)
                (list_prod cube cube)) as Hle.
  rewrite length_prod in Hle. nia.
Qed.

(** X15. Anchoring is regular on the cube: every cube point anchors
    exactly 9 cube points and is anchored by exactly 9, whatever its
    components; hence the 27 * 9 valid pairs. It is not symmetric. *)
Theorem ancrage_regulier_cube (p : Vector) :
  p ∈ generer_cube_27 →
  length (filter (λ p2, ancrage_valide p p2 = true) generer_cube_27) = 9%nat
  ∧ length (filter (λ p1, ancrage_valide p1 p = true) generer_cube_27) = 9%nat
  ∧ ancrage_valide (0, 1, 0) (1, 2, 0) = true
  ∧ ancrage_valide (1, 2, 0) (0, 1, 0) = false.
Proof.
  intros H. apply list_elem_of_In in H. vm_compute in H.
  repeat (destruct H as [H | H]; [subst p; vm_compute; repeat split|]).
  done.
Qed.

Lemma ancrage_regulier_cube_witness :
  (2, 1, 0) ∈ generer_cube_27
  ∧ length (filter (λ p2, ancrage_valide (2, 1, 0) p2 = true) generer_cube_27)
    = 9%nat.
Proof.
  assert (H : (2, 1, 0) ∈ generer_cube_27)
    by (apply (bool_decide_unpack _); by vm_compute).
  split; [exact H | apply (ancrage_regulier_cube (2, 1, 0) H)].
Defined.

(** X16. Version 1.1 reports the same three counts as version 1.2, 27
    points, 729 pairs and 243 anchors, and the ratio as computed; the
    percentage of version 1.2 is that ratio rounded to two decimals, and
    the two floats differ. *)
Theorem analyser_cube_27_V1 :
  nombre_points V1.analyser_cube_27 = 27%nat
  ∧ total_paires V1.analyser_cube_27 = 729
  ∧ ancrages_valides V1.analyser_cube_27 = 243
  ∧ ratio_percentage V1.analyser_cube_27 = V12.ratio_cube 243 729
  ∧ ratio_percentage V12.analyser_cube_27
    = Flottant.round2 (ratio_percentage V1.analyser_cube_27)
  ∧ ratio_percentage V12.analyser_cube_27
    ≠ ratio_percentage V1.analyser_cube_27.
Proof. repeat split; by vm_compute. Qed.

(** ** The poetic triad *)




(** A triad with a named and an unnamed vector. *)
Example triade_demonstration :
  V12.generer_triade_poetique M_THESE M_ANTITHESE
    (Some {[ (1, 0, 0) := "Interrogation"; (0, 0, 1) := "Affirmation" ]})
  = {| concept_1 := "Interrogation";
       concept_2 := "(0, 1, 0)";
       tension := (1, 1, 0);
       synthese := (1, 1, 2);
       equilibre := true |}.
Proof. by vm_compute. Qed.

(** ** Printed vectors *)

Lemma pretty_N_char_sans (c : ascii) (n : N) :
  c = ","%char ∨ c = ")"%char → pretty_N_char n ≠ c.
Proof.
  intros [-> | ->]; unfold pretty_N_char; by repeat case_match.
Qed.

Lemma pretty_N_go_sans (c : ascii) (x : N) (s : string) :
  c = ","%char ∨ c = ")"%char → sans c s → sans c (pretty_N_go x s).
Proof.
  intros Hc. revert s. induction (N.lt_wf_0 x) as [x _ IH]. intros s Hs.
  assert (x = 0 ∨ 0 < x)%N as [-> | Hpos] by lia.
  - by rewrite pretty_N_go_0.
  - rewrite pretty_N_go_step by done. apply IH.
    + by apply N.div_lt.
    + simpl. split; [by apply pretty_N_char_sans | done].
Qed.

Lemma pretty_Z_sans (c : ascii) (z : Z) :
  c = ","%char ∨ c = ")"%char → sans c (pretty z).
Proof.
  intros Hc.
  assert (HN : ∀ n : N, sans c (pretty n)).
  { intros n. unfold pretty, pretty_N. case_decide.
    - simpl. split; [|done]. by destruct Hc as [-> | ->].
    - by apply pretty_N_go_sans. }
  destruct z as [|q|q]; unfold pretty, pretty_Z.
  - simpl. split; [|done]. by destruct Hc as [-> | ->].
  - apply HN.
  - simpl. split; [by destruct Hc as [-> | ->] | apply HN].
Qed.

(** Two strings without [c], each followed by [c] and a rest: equal
    wholes have equal parts. *)
Lemma couper_au_separateur (c : ascii) (u u' r r' : string) :
  sans c u → sans c u' →
  u +:+ String c r = u' +:+ String c r' → u = u' ∧ r = r'.
Proof.
  revert u'. induction u as [|x u IH]; intros [|x' u'] Hu Hu'; simpl in *.
  - by intros [= ->].
  - intros [= <- _]. by destruct Hu' as [? _].
  - intros [= -> _]. by destruct Hu as [? _].
  - intros [= -> Heq]. destruct Hu as [_ Hu], Hu' as [_ Hu'].
    destruct (IH u' Hu Hu' Heq) as [-> ->]. done.
Qed.

(** X20. The printed form identifies the vector: two vectors with the
    same [str] are equal, so labels that fall back on the printed form
    never confuse two vectors. *)
Theorem str_vector_injective (v w : Vector) :
  str_vector v = str_vector w → v = w.
Proof.
  destruct v as [[t a] s], w as [[t' a'] s']. unfold str_vector.
  intros H. simpl in H. injection H as H.
  apply couper_au_separateur in H as [Ht H];
    [|by apply pretty_Z_sans; left..].
  injection H as H.
  apply couper_au_separateur in H as [Ha H];
    [|by apply pretty_Z_sans; left..].
  injection H as H.
  apply couper_au_separateur in H as [Hs _];
    [|by apply pretty_Z_sans; right..].
  apply (inj pretty) in Ht, Ha, Hs. by subst.
Qed.

Lemma str_vector_injective_witness :
  str_vector (1, 0, 0) = str_vector (1, 0, 0)
  ∧ (1, 0, 0) = ((1, 0, 0) : Vector).
Proof.
  split; [reflexivity|].
  apply (str_vector_injective (1, 0, 0) (1, 0, 0)). reflexivity.
Defined.
